(** * Z16 instruction-set simulator: a shallow embedding of [z16sim.cpp]

    The simulator keeps three globals ([memory], [regs], [pc]), renders each
    fetched 16-bit word with [disassemble], runs it with
    [executeInstruction], and loops in [main].  The globals become a record
    that is passed explicitly; everything written with [printf] becomes a
    returned string.  C integer types are modelled on [Z] with every
    narrowing conversion written out ([u8], [u16], [s16]). *)

From Stdlib Require Import ZArith List String Ascii Lia Bool DecimalString.
From stdpp Require Import base list strings.
Import ListNotations.
Open Scope Z_scope.

(** ** Machine integers *)

Definition MEM_SIZE : Z := 65536.

(** Conversion to [uint8_t], [uint16_t] and [int16_t]. *)
Definition u8 (x : Z) : Z := x mod 256.
Definition u16 (x : Z) : Z := x mod 65536.
Definition s16 (x : Z) : Z := (x + 32768) mod 65536 - 32768.

(** ** Global state *)

Record State : Type := mkState {
  memory : list Z;   (* unsigned char memory[MEM_SIZE] *)
  regs : list Z;     (* uint16_t regs[8] *)
  pc : Z             (* uint16_t pc *)
}.

Definition regNames : list string :=
  ["t0"; "ra"; "sp"; "s0"; "s1"; "t1"; "a0"; "a1"]%string.

Definition regName (i : Z) : string := default EmptyString (regNames !! Z.to_nat i).

(** [regs[i]] as an rvalue and as an assignment target. *)
Definition reg (s : State) (i : Z) : Z := default 0 (regs s !! Z.to_nat i).

Definition set_reg (s : State) (i v : Z) : State :=
  mkState (memory s) (<[Z.to_nat i := v]> (regs s)) (pc s).

Definition set_pc (s : State) (v : Z) : State :=
  mkState (memory s) (regs s) v.

(** ** printf conversions *)

(** [%i] and [%u] of an [int]. *)
Definition fmt_dec (z : Z) : string := NilZero.string_of_int (Z.to_int z).

Definition hex_digit (d : Z) : ascii :=
  default "0"%char (list_ascii_of_string "0123456789ABCDEF" !! Z.to_nat d).

Fixpoint hex_fixed (w : nat) (z : Z) (acc : string) : string :=
  match w with
  | O => acc
  | S w' => hex_fixed w' (z / 16) (String (hex_digit (z mod 16)) acc)
  end.

Definition hex_width (z : Z) : nat := Z.to_nat (Z.log2 z / 4 + 1).

(** [%0wX] of a non-negative [int]: at least [w] digits, upper case. *)
Definition fmt_hex (w : nat) (z : Z) : string :=
  hex_fixed (Nat.max w (hex_width z)) z EmptyString.

(** ** Bit fields shared by the R-, I-, B-, S- and L-type layouts *)

Definition opcode_of (inst : Z) : Z := u8 (Z.land inst 7).
Definition funct4_of (inst : Z) : Z := u8 (Z.land (Z.shiftr inst 12) 15).
Definition rs2_of (inst : Z) : Z := u8 (Z.land (Z.shiftr inst 9) 7).
Definition rd_rs1_of (inst : Z) : Z := u8 (Z.land (Z.shiftr inst 6) 7).
Definition funct3_of (inst : Z) : Z := u8 (Z.land (Z.shiftr inst 3) 7).
Definition offset_of (inst : Z) : Z := u8 (Z.land (Z.shiftr inst 12) 15).

(** The I-type immediate as [disassemble] reads it (line 94, mask 0xF). *)
Definition disasm_imm7 (inst : Z) : Z := u8 (Z.land (Z.shiftr inst 9) 15).

(** The I-type immediate as [executeInstruction] reads it (line 246, mask
    0x7F), and its sign extension (line 249). *)
Definition exec_imm7 (inst : Z) : Z := u8 (Z.land (Z.shiftr inst 9) 127).
Definition exec_simm (inst : Z) : Z :=
  let imm7 := exec_imm7 inst in
  s16 (if Z.land imm7 64 =? 0 then imm7 else Z.lor imm7 65408).

(** J-type immediate of [disassemble] (lines 184-186). *)
Definition jump_imm (inst : Z) : Z :=
  let imm_high := u8 (Z.land (Z.shiftr inst 9) 63) in
  let imm_low := u8 (Z.land (Z.shiftr inst 3) 7) in
  u16 (Z.lor (Z.shiftl imm_high 4) (Z.shiftl imm_low 1)).

(** U-type immediate of [disassemble] (lines 198-200); the high part is
    taken from [inst << 9]. *)
Definition upper_imm_high (inst : Z) : Z := u8 (Z.land (Z.shiftl inst 9) 63).
Definition upper_imm_low (inst : Z) : Z := u8 (Z.land (Z.shiftr inst 3) 7).
Definition upper_imm (inst : Z) : Z :=
  u16 (Z.lor (Z.shiftl (upper_imm_high inst) 10) (Z.shiftl (upper_imm_low inst) 7)).

(** The service number, as both functions read it (lines 210 and 270):
    masked with 0x1FF and stored in a [uint8_t]. *)
Definition svc_of (inst : Z) : Z := u8 (Z.land (Z.shiftr inst 6) 511).

(** ** The disassembler *)

Local Notation "a ^^ b" := (String.append a b) (at level 60, right associativity).

Definition fmt_rr (mn : string) (a b : Z) : string :=
  mn ^^ " " ^^ regName a ^^ ", " ^^ regName b.
Definition fmt_ri (mn : string) (a i : Z) : string :=
  mn ^^ " " ^^ regName a ^^ ", " ^^ fmt_dec i.
Definition fmt_rri (mn : string) (a b i : Z) : string :=
  mn ^^ " " ^^ regName a ^^ ", " ^^ regName b ^^ ", " ^^ fmt_dec i.
Definition fmt_mem (mn : string) (a i b : Z) : string :=
  mn ^^ " " ^^ regName a ^^ ", " ^^ fmt_dec i ^^ "(" ^^ regName b ^^ ")".

Definition disasm_rtype (inst : Z) : string :=
  let funct4 := funct4_of inst in
  let rs2 := rs2_of inst in
  let rd_rs1 := rd_rs1_of inst in
  let funct3 := funct3_of inst in
  if (funct4 =? 0) && (funct3 =? 0) then fmt_rr "add" rd_rs1 rs2
  else if (funct4 =? 1) && (funct3 =? 0) then fmt_rr "sub" rd_rs1 rs2
  else if (funct4 =? 2) && (funct3 =? 1) then fmt_rr "slt" rd_rs1 rs2
  else if (funct4 =? 3) && (funct3 =? 2) then fmt_rr "sltu" rd_rs1 rs2
  else if (funct4 =? 4) && (funct3 =? 3) then fmt_rr "sll" rd_rs1 rs2
  else if (funct4 =? 5) && (funct3 =? 3) then fmt_rr "srl" rd_rs1 rs2
  else if (funct4 =? 6) && (funct3 =? 3) then fmt_rr "sra" rd_rs1 rs2
  else if (funct4 =? 7) && (funct3 =? 4) then fmt_rr "or" rd_rs1 rs2
  else if (funct4 =? 8) && (funct3 =? 5) then fmt_rr "and" rd_rs1 rs2
  else if (funct4 =? 9) && (funct3 =? 6) then fmt_rr "xor" rd_rs1 rs2
  else if (funct4 =? 10) && (funct3 =? 7) then fmt_rr "mv" rd_rs1 rs2
  else if (funct4 =? 11) && (funct3 =? 0) then "jr " ^^ regName rd_rs1
  else if (funct4 =? 12) && (funct3 =? 0) then fmt_rr "jalr" rd_rs1 rs2
  else EmptyString.

Definition disasm_itype (inst : Z) : string :=
  let imm7 := disasm_imm7 inst in
  let rd_rs1 := rd_rs1_of inst in
  let funct3 := funct3_of inst in
  if funct3 =? 0 then fmt_ri "addi" rd_rs1 imm7
  else if funct3 =? 1 then fmt_ri "slti" rd_rs1 imm7
  else if funct3 =? 2 then fmt_ri "sltui" rd_rs1 imm7
  else if funct3 =? 3 then
    let shamt_mode := u8 (Z.land (Z.shiftr imm7 4) 7) in
    let shamt := u8 (Z.land imm7 15) in
    if shamt_mode =? 1 then fmt_ri "slli" rd_rs1 shamt
    else if shamt_mode =? 2 then fmt_ri "srli" rd_rs1 shamt
    else if shamt_mode =? 4 then fmt_ri "srai" rd_rs1 shamt
    else "unknown shift " ^^ regName rd_rs1 ^^ ", imm=0x" ^^ fmt_hex 2 imm7
  else if funct3 =? 4 then fmt_ri "ori" rd_rs1 imm7
  else if funct3 =? 5 then fmt_ri "andi" rd_rs1 imm7
  else if funct3 =? 6 then fmt_ri "xori" rd_rs1 imm7
  else if funct3 =? 7 then fmt_ri "li" rd_rs1 imm7
  else EmptyString.

Definition disasm_btype (inst : Z) : string :=
  let offset := offset_of inst in
  let rs2 := rs2_of inst in
  let rd_rs1 := rd_rs1_of inst in
  let funct3 := funct3_of inst in
  if funct3 =? 0 then fmt_rri "beq" rd_rs1 rs2 offset
  else if funct3 =? 1 then fmt_rri "bne" rd_rs1 rs2 offset
  else if funct3 =? 2 then fmt_ri "bz" rd_rs1 offset
  else if funct3 =? 3 then fmt_ri "bnz" rd_rs1 offset
  else if funct3 =? 4 then fmt_rri "blt" rd_rs1 rs2 offset
  else if funct3 =? 5 then fmt_rri "bge" rd_rs1 rs2 offset
  else if funct3 =? 6 then fmt_rri "bltu" rd_rs1 rs2 offset
  else if funct3 =? 7 then fmt_rri "bgeu" rd_rs1 rs2 offset
  else EmptyString.

Definition disasm_stype (inst : Z) : string :=
  let offset := offset_of inst in
  let rs2 := rs2_of inst in
  let rd_rs1 := rd_rs1_of inst in
  let funct3 := funct3_of inst in
  if funct3 =? 0 then fmt_mem "sb" rd_rs1 offset rs2
  else if funct3 =? 1 then fmt_mem "sw" rd_rs1 offset rs2
  else EmptyString.

Definition disasm_ltype (inst : Z) : string :=
  let offset := offset_of inst in
  let rs2 := rs2_of inst in
  let rd := rd_rs1_of inst in
  let funct3 := funct3_of inst in
  if funct3 =? 0 then fmt_mem "lb" rd offset rs2
  else if funct3 =? 1 then fmt_mem "lw" rd offset rs2
  else if funct3 =? 4 then fmt_mem "lbu" rd offset rs2
  else EmptyString.

Definition disasm_jtype (inst : Z) : string :=
  let flag := u8 (Z.land (Z.shiftr inst 15) 1) in
  let rd := rd_rs1_of inst in
  let imm := jump_imm inst in
  if flag =? 0 then "j " ^^ fmt_dec imm
  else if flag =? 1 then fmt_ri "jal" rd imm
  else EmptyString.

Definition disasm_utype (inst : Z) : string :=
  let flag := u8 (Z.land (Z.shiftr inst 15) 1) in
  let rd := rd_rs1_of inst in
  let imm := upper_imm inst in
  if flag =? 0 then fmt_ri "lui" rd imm
  else if flag =? 1 then fmt_ri "auipc" rd imm
  else EmptyString.

(** What one call of [disassemble] does: [dis_out] is the text sent to
    standard output, [dis_buf] is what was stored in [buf] ([None] when the
    buffer was left untouched; only the [default] label writes it). *)
Record Disasm : Type := mkDisasm { dis_out : string; dis_buf : option string }.

Definition disassemble (inst pc0 : Z) : Disasm :=
  let opcode := opcode_of inst in
  if opcode =? 0 then mkDisasm (disasm_rtype inst) None
  else if opcode =? 1 then mkDisasm (disasm_itype inst) None
  else if opcode =? 2 then mkDisasm (disasm_btype inst) None
  else if opcode =? 3 then mkDisasm (disasm_stype inst) None
  else if opcode =? 4 then mkDisasm (disasm_ltype inst) None
  else if opcode =? 5 then mkDisasm (disasm_jtype inst) None
  else if opcode =? 6 then mkDisasm (disasm_utype inst) None
  else if opcode =? 7 then mkDisasm ("ecall " ^^ fmt_dec (svc_of inst)) None
  else mkDisasm EmptyString (Some "Unknown opcode"%string).

(** ** The executor *)

Definition nl : string := String (ascii_of_nat 10) EmptyString.

(** How control leaves the [switch] of [executeInstruction]: through a
    [return] inside a case, or through [break] with the current value of the
    local [pcUpdated]. *)
Inductive SwitchExit : Type :=
| Returned (r : Z)
| Fell (pcUpdated : Z).

Record Switched : Type := mkSwitched {
  sw_exit : SwitchExit;
  sw_out : string;
  sw_state : State
}.

Definition exec_switch (inst : Z) (s : State) : Switched :=
  let opcode := opcode_of inst in
  let pcUpdated := 0 in
  if opcode =? 0 then
    let funct4 := funct4_of inst in
    let rs2 := rs2_of inst in
    let rd_rs1 := rd_rs1_of inst in
    let funct3 := funct3_of inst in
    if (funct4 =? 0) && (funct3 =? 0) then
      mkSwitched (Fell pcUpdated) EmptyString
        (set_reg s rd_rs1 (u16 (reg s rd_rs1 + reg s rs2)))
    else if (funct4 =? 1) && (funct3 =? 0) then
      mkSwitched (Fell pcUpdated) EmptyString
        (set_reg s rd_rs1 (u16 (reg s rd_rs1 - reg s rs2)))
    else mkSwitched (Fell pcUpdated) EmptyString s
  else if opcode =? 1 then
    let imm7 := exec_imm7 inst in
    let rd_rs1 := rd_rs1_of inst in
    let funct3 := funct3_of inst in
    let simm := exec_simm inst in
    mkSwitched (Fell pcUpdated) EmptyString s
  else if opcode =? 2 then mkSwitched (Fell pcUpdated) EmptyString s
  else if opcode =? 3 then mkSwitched (Fell pcUpdated) EmptyString s
  else if opcode =? 5 then mkSwitched (Fell pcUpdated) EmptyString s
  else if opcode =? 6 then mkSwitched (Fell pcUpdated) EmptyString s
  else if opcode =? 7 then
    let svc := svc_of inst in
    if svc =? 1023 then mkSwitched (Returned 0) EmptyString s
    else mkSwitched (Fell pcUpdated) EmptyString s
  else
    mkSwitched (Fell pcUpdated)
      ("Unknown instruction opcode 0x" ^^ fmt_hex 1 opcode ^^ nl) s.

(** One call of [executeInstruction]: the returned [int], the text printed,
    and the globals afterwards. *)
Record Executed : Type := mkExecuted {
  ex_ret : Z;
  ex_out : string;
  ex_state : State
}.

Definition executeInstruction (inst : Z) (s : State) : Executed :=
  let sw := exec_switch inst s in
  match sw_exit sw with
  | Returned r => mkExecuted r (sw_out sw) (sw_state sw)
  | Fell pcUpdated =>
      let s1 := sw_state sw in
      let s2 := if pcUpdated =? 0 then set_pc s1 (u16 (pc s1 + 2)) else s1 in
      mkExecuted 1 (sw_out sw) s2
  end.

(** ** Image loading and the main loop *)

(** [memory] is a zero-initialised global; [fread] overwrites its first
    bytes with at most [MEM_SIZE] bytes of the file. *)
Definition loadMemoryFromFile (file : list Z) : list Z :=
  take (Z.to_nat MEM_SIZE) file
    ++ replicate (Z.to_nat MEM_SIZE - length file)%nat 0.

Definition initial (file : list Z) : State :=
  mkState (loadMemoryFromFile file) (replicate 8%nat 0) 0.

(** [memory[i]]; [None] when [i] is not an index of the array. *)
Definition mem_read (m : list Z) (i : Z) : option Z :=
  if (0 <=? i) && (i <? MEM_SIZE) then m !! Z.to_nat i else None.

(** Line 319: [memory[pc] | (memory[pc + 1] << 8)], stored in a
    [uint16_t]; [pc + 1] is computed in [int] and does not wrap. *)
Definition fetch (s : State) : option Z :=
  match mem_read (memory s) (pc s), mem_read (memory s) (pc s + 1) with
  | Some lo, Some hi => Some (u16 (Z.lor lo (Z.shiftl hi 8)))
  | _, _ => None
  end.

(** One trace line: the fetch address, the disassembly, and whatever the
    executor printed after it. *)
Record Event : Type := mkEvent {
  ev_addr : Z;
  ev_text : string;
  ev_exec : string
}.

Definition render (e : Event) : string :=
  "0x" ^^ fmt_hex 4 (ev_addr e) ^^ ": " ^^ ev_text e ^^ nl ^^ ev_exec e.

(** One pass through the [while] of [main], starting at its guard. *)
Inductive Outcome : Type :=
| Exhausted                          (* guard [pc < MEM_SIZE] false *)
| OutOfBounds                        (* the fetch indexes past the array *)
| Stopped (e : Event) (s : State)    (* [executeInstruction] returned 0 *)
| Overrun (e : Event) (s : State)    (* [pc >= MEM_SIZE] after execution *)
| Continue (e : Event) (s : State).

Definition loop_iter (s : State) : Outcome :=
  if pc s <? MEM_SIZE then
    match fetch s with
    | None => OutOfBounds
    | Some inst =>
        let d := disassemble inst (pc s) in
        let x := executeInstruction inst s in
        let e := mkEvent (pc s) (dis_out d) (ex_out x) in
        if ex_ret x =? 0 then Stopped e (ex_state x)
        else if MEM_SIZE <=? pc (ex_state x) then Overrun e (ex_state x)
        else Continue e (ex_state x)
    end
  else Exhausted.

Inductive Status : Type :=
| RUNNING
| HALTED_normal
| HALTED_exhausted
| UNDEFINED.

(** [run n s]: at most [n] passes of the loop from [s]. *)
Fixpoint run (n : nat) (s : State) : list Event * Status * State :=
  match n with
  | O => ([], RUNNING, s)
  | S n' =>
      match loop_iter s with
      | Exhausted => ([], HALTED_exhausted, s)
      | OutOfBounds => ([], UNDEFINED, s)
      | Stopped e s' => ([e], HALTED_normal, s')
      | Overrun e s' => ([e], HALTED_exhausted, s')
      | Continue e s' =>
          let '(t, st, s'') := run n' s' in (e :: t, st, s'')
      end
  end.

(** States the loop can be in at its guard, for a given image file. *)
Inductive reachable (file : list Z) : State -> Prop :=
| reach_init : reachable file (initial file)
| reach_next s e s' :
    reachable file s -> loop_iter s = Continue e s' -> reachable file s'.

(** Well-formed globals: array sizes and value ranges of the C types. *)
Record wf_state (s : State) : Prop := mkWf {
  wf_mem_len : length (memory s) = Z.to_nat MEM_SIZE;
  wf_regs_len : length (regs s) = 8%nat;
  wf_regs_rng : Forall (fun v => 0 <= v < 65536) (regs s);
  wf_pc_rng : 0 <= pc s < 65536
}.

(** The event and the successor state of a pass that fetched [inst]. *)
Definition pass_event (inst : Z) (s : State) : Event :=
  mkEvent (pc s) (dis_out (disassemble inst (pc s))) (ex_out (executeInstruction inst s)).

Definition pass_state (inst : Z) (s : State) : State :=
  ex_state (executeInstruction inst s).

(** ** The loop with its unspecified parts left open *)








(** The U-type immediate as the layout comment of line 195 describes it:
    bits [14:9] of the word at positions [15:10], bits [5:3] at [9:7]. *)
Definition upper_imm_layout (inst : Z) : Z :=
  Z.lor (Z.shiftl (Z.land (Z.shiftr inst 9) 63) 10)
        (Z.shiftl (Z.land (Z.shiftr inst 3) 7) 7).

(** ** The process around the loop *)

(** The value [fread] returns in [loadMemoryFromFile], and the line printed
    with it (line 299). *)
Definition loaded_count (file : list Z) : Z :=
  Z.min (Z.of_nat (length file)) MEM_SIZE.

Definition load_message (file : list Z) : string :=
  "Loaded " ^^ fmt_dec (loaded_count file) ^^ " bytes into memory" ^^ nl.

(** How far [main] has got: it has called [exit] or returned with a status,
    it is still in its loop, or it has indexed past [memory]. *)
Inductive Ending : Type :=
| Exited (code : Z)
| StillRunning
| Undefined.

Record Process : Type := mkProcess {
  p_stdout : string;
  p_stderr : string;
  p_end : Ending
}.

Definition ending_of (st : Status) : Ending :=
  match st with
  | RUNNING => StillRunning
  | HALTED_normal => Exited 0
  | HALTED_exhausted => Exited 0
  | UNDEFINED => Undefined
  end.

(** [main] observed after at most [passes] passes of its loop.  [argv0] is
    [argv[0]], [args] the remaining arguments (so [argc] is one more than
    their number); [fopen] gives the bytes of a file, or the text [perror]
    appends when it cannot be opened. *)
Definition main (passes : nat) (argv0 : string) (args : list string)
    (fopen : string -> string + list Z) : Process :=
  match args with
  | [path] =>
      match fopen path with
      | inl err =>
          mkProcess EmptyString
            ("Error opening binary file: " ^^ err ^^ nl) (Exited 1)
      | inr file =>
          let '(t, st, _) := run passes (initial file) in
          mkProcess (load_message file ^^ String.concat EmptyString (map render t))
            EmptyString (ending_of st)
      end
  | _ =>
      mkProcess EmptyString
        ("Usage: " ^^ argv0 ^^ " <machine_code_file>" ^^ nl) (Exited 1)
  end.

(** The state at the [k]-th pass of a run on [file], and the line that
    pass prints. *)
Definition pass_at (file : list Z) (k : nat) : State :=
  mkState (loadMemoryFromFile file) (replicate 8%nat 0) (u16 (2 * Z.of_nat k)).

Definition line_at (file : list Z) (k : nat) : Event :=
  match fetch (pass_at file k) with
  | Some inst => pass_event inst (pass_at file k)
  | None => mkEvent (pc (pass_at file k)) EmptyString EmptyString
  end.

(** The R-type word with the given fields, as the layout comment of line 59
    places them. *)
Definition rtype_word (funct4 rs2 rd_rs1 funct3 opcode : Z) : Z :=
  Z.lor (Z.shiftl funct4 12)
    (Z.lor (Z.shiftl rs2 9)
       (Z.lor (Z.shiftl rd_rs1 6) (Z.lor (Z.shiftl funct3 3) opcode))).

(** The pairs (funct4, funct3) for which the R-type case of [disassemble]
    prints a mnemonic (lines 65-90). *)
Definition rtype_defined (funct4 funct3 : Z) : bool :=
  existsb (fun p => (funct4 =? p.1) && (funct3 =? p.2))
    [(0, 0); (1, 0); (2, 1); (3, 2); (4, 3); (5, 3); (6, 3); (7, 4);
     (8, 5); (9, 6); (10, 7); (11, 0); (12, 0)].

(** ** Concrete inputs used below *)

(** A register file with ra = 40000 (memory is not touched by the
    executor, so it is left empty here). *)
Definition regs_40000 : State :=
  mkState [] [0; 40000; 0; 0; 0; 0; 0; 0] 0.

(** The image [li t0, 5; ecall 3], little-endian. *)
Definition two_lines : list Z := [0x39; 0x0A; 0xC7; 0x00].


(** ** Sanity checks of the model on concrete words *)

Example disasm_add : dis_out (disassemble 0x0240 0) = "add ra, ra"%string.
Proof. reflexivity. Qed.

Example disasm_li : dis_out (disassemble 0x0A39 0) = "li t0, 5"%string.
Proof. reflexivity. Qed.

Example disasm_ecall : dis_out (disassemble 0x00C7 0) = "ecall 3"%string.
Proof. reflexivity. Qed.

Example render_line :
  render (mkEvent 0x1A (dis_out (disassemble 0x0A39 0x1A)) EmptyString)
  = ("0x001A: li t0, 5" ^^ nl)%string.
Proof. reflexivity. Qed.

Example run_two :
  let r := run 2 (initial two_lines) in
  r.1.1 = [mkEvent 0 "li t0, 5" EmptyString; mkEvent 2 "ecall 3" EmptyString]
  /\ r.1.2 = RUNNING /\ regs r.2 = replicate 8%nat 0 /\ pc r.2 = 4.
Proof. lazy. repeat split; reflexivity. Qed.

(** ** Masks and narrowing conversions as arithmetic *)

(** [lia] is taught division and remainder by constants. *)
#[local] Ltac Zify.zify_post_hook ::= Z.to_euclidean_division_equations.

Lemma land_mask (x : Z) (k : Z) : 0 <= k -> Z.land x (Z.ones k) = x mod 2 ^ k.
Proof. intros Hk. now apply Z.land_ones. Qed.

Lemma land_1 x : Z.land x 1 = x mod 2.
Proof. exact (land_mask x 1 ltac:(lia)). Qed.

Lemma land_7 x : Z.land x 7 = x mod 8.
Proof. exact (land_mask x 3 ltac:(lia)). Qed.

Lemma land_15 x : Z.land x 15 = x mod 16.
Proof. exact (land_mask x 4 ltac:(lia)). Qed.

Lemma land_63 x : Z.land x 63 = x mod 64.
Proof. exact (land_mask x 6 ltac:(lia)). Qed.

Lemma land_127 x : Z.land x 127 = x mod 128.
Proof. exact (land_mask x 7 ltac:(lia)). Qed.

Lemma land_511 x : Z.land x 511 = x mod 512.
Proof. exact (land_mask x 9 ltac:(lia)). Qed.

Create Rewrite HintDb z16.
#[local] Hint Rewrite land_1 land_7 land_15 land_63 land_127 land_511 : z16.

Ltac fields :=
  unfold opcode_of, funct4_of, rs2_of, rd_rs1_of, funct3_of, offset_of,
    disasm_imm7, exec_imm7, svc_of, upper_imm_high, upper_imm_low, u8, u16 in *;
  autorewrite with z16 in *.

Lemma opcode_of_range inst : 0 <= opcode_of inst < 8.
Proof. fields. lia. Qed.

Lemma rd_rs1_of_range inst : 0 <= rd_rs1_of inst < 8.
Proof. fields. lia. Qed.

Lemma rs2_of_range inst : 0 <= rs2_of inst < 8.
Proof. fields. lia. Qed.

Lemma svc_of_range inst : 0 <= svc_of inst < 256.
Proof. fields. lia. Qed.

Lemma u16_range x : 0 <= u16 x < 65536.
Proof. unfold u16. lia. Qed.

(** ** What [executeInstruction] can and cannot do *)

(** The comparison of line 273 never succeeds: [svc] is a [uint8_t]. *)
Lemma svc_never_1023 inst : (svc_of inst =? 1023) = false.
Proof. apply Z.eqb_neq. pose proof (svc_of_range inst). lia. Qed.

Ltac split_ifs :=
  repeat match goal with
  | |- context [if ?b then _ else _] => destruct b eqn:?; simpl
  end.

Lemma exec_switch_falls inst s : sw_exit (exec_switch inst s) = Fell 0.
Proof.
  unfold exec_switch. rewrite svc_never_1023. split_ifs; reflexivity.
Qed.

Lemma exec_switch_memory inst s : memory (sw_state (exec_switch inst s)) = memory s.
Proof. unfold exec_switch. split_ifs; reflexivity. Qed.

Lemma exec_switch_pc inst s : pc (sw_state (exec_switch inst s)) = pc s.
Proof. unfold exec_switch. split_ifs; reflexivity. Qed.

Lemma execute_unfold inst s :
  executeInstruction inst s
  = mkExecuted 1 (sw_out (exec_switch inst s))
      (set_pc (sw_state (exec_switch inst s)) (u16 (pc s + 2))).
Proof.
  unfold executeInstruction. rewrite exec_switch_falls, exec_switch_pc.
  reflexivity.
Qed.

Lemma execute_ret inst s : ex_ret (executeInstruction inst s) = 1.
Proof. now rewrite execute_unfold. Qed.

Lemma execute_pc inst s : pc (ex_state (executeInstruction inst s)) = u16 (pc s + 2).
Proof. now rewrite execute_unfold. Qed.

Lemma execute_memory inst s : memory (ex_state (executeInstruction inst s)) = memory s.
Proof. rewrite execute_unfold. simpl. apply exec_switch_memory. Qed.

Lemma execute_regs inst s :
  regs (ex_state (executeInstruction inst s)) = regs (sw_state (exec_switch inst s)).
Proof. now rewrite execute_unfold. Qed.

(** The register file after the switch: untouched, or one cell overwritten
    by the add or the sub of lines 239 and 241. *)
Lemma exec_switch_regs inst s :
  regs (sw_state (exec_switch inst s)) = regs s
  \/ (opcode_of inst = 0 /\ funct3_of inst = 0 /\ funct4_of inst = 0
      /\ regs (sw_state (exec_switch inst s))
         = <[Z.to_nat (rd_rs1_of inst) :=
               u16 (reg s (rd_rs1_of inst) + reg s (rs2_of inst))]> (regs s))
  \/ (opcode_of inst = 0 /\ funct3_of inst = 0 /\ funct4_of inst = 1
      /\ regs (sw_state (exec_switch inst s))
         = <[Z.to_nat (rd_rs1_of inst) :=
               u16 (reg s (rd_rs1_of inst) - reg s (rs2_of inst))]> (regs s)).
Proof.
  unfold exec_switch.
  destruct (opcode_of inst =? 0) eqn:Hop.
  - apply Z.eqb_eq in Hop.
    destruct ((funct4_of inst =? 0) && (funct3_of inst =? 0)) eqn:Hadd.
    + apply andb_true_iff in Hadd as [H4 H3].
      apply Z.eqb_eq in H4, H3. right; left. auto.
    + destruct ((funct4_of inst =? 1) && (funct3_of inst =? 0)) eqn:Hsub.
      * apply andb_true_iff in Hsub as [H4 H3].
        apply Z.eqb_eq in H4, H3. right; right. auto.
      * left; reflexivity.
  - left. split_ifs; reflexivity.
Qed.

Lemma execute_wf inst s : wf_state s -> wf_state (ex_state (executeInstruction inst s)).
Proof.
  intros [Hm Hl Hr Hp]. split.
  - now rewrite execute_memory.
  - rewrite execute_regs.
    destruct (exec_switch_regs inst s) as [-> | [(_ & _ & _ & ->) | (_ & _ & _ & ->)]];
      rewrite ?length_insert; assumption.
  - rewrite execute_regs.
    destruct (exec_switch_regs inst s) as [-> | [(_ & _ & _ & ->) | (_ & _ & _ & ->)]];
      try assumption; apply Forall_insert; auto using u16_range.
  - rewrite execute_pc. apply u16_range.
Qed.

(** ** The loop on well-formed states *)

Lemma loadMemoryFromFile_length file :
  length (loadMemoryFromFile file) = Z.to_nat MEM_SIZE.
Proof.
  unfold loadMemoryFromFile.
  rewrite length_app, length_take, length_replicate. lia.
Qed.

Lemma initial_wf file : wf_state (initial file).
Proof.
  split; simpl.
  - apply loadMemoryFromFile_length.
  - reflexivity.
  - repeat constructor; lia.
  - lia.
Qed.

Lemma even_below_top p : 0 <= p < 65536 -> Z.even p = true -> p + 1 < 65536.
Proof.
  intros Hp He. apply Z.even_spec in He as [k ->]. lia.
Qed.

Lemma even_advance p : Z.even p = true -> Z.even (u16 (p + 2)) = true.
Proof.
  intros He. apply Z.even_spec in He as [k ->].
  apply Z.even_spec. exists ((k + 1) mod 32768). unfold u16. lia.
Qed.

Lemma mem_read_in_range m i :
  length m = Z.to_nat MEM_SIZE -> 0 <= i < MEM_SIZE -> is_Some (mem_read m i).
Proof.
  intros Hlen Hi. unfold mem_read.
  replace ((0 <=? i) && (i <? MEM_SIZE)) with true by (symmetry; apply andb_true_iff; lia).
  apply lookup_lt_is_Some_2. lia.
Qed.


Lemma fetch_in_range s :
  wf_state s -> Z.even (pc s) = true -> is_Some (fetch s).
Proof.
  intros Hwf He. destruct Hwf as [Hm _ _ Hp].
  pose proof (even_below_top _ Hp He) as Hp1.
  unfold fetch, MEM_SIZE in *.
  destruct (mem_read_in_range (memory s) (pc s) Hm) as [lo ->]; [unfold MEM_SIZE; lia|].
  destruct (mem_read_in_range (memory s) (pc s + 1) Hm) as [hi ->]; [unfold MEM_SIZE; lia|].
  eauto.
Qed.

Lemma loop_iter_fetched s inst :
  0 <= pc s < 65536 -> fetch s = Some inst ->
  loop_iter s = Continue (pass_event inst s) (pass_state inst s).
Proof.
  intros Hp Hf. unfold loop_iter, pass_event, pass_state. rewrite Hf.
  replace (pc s <? MEM_SIZE) with true by (symmetry; apply Z.ltb_lt; unfold MEM_SIZE; lia).
  rewrite execute_ret, execute_pc. simpl.
  replace (MEM_SIZE <=? u16 (pc s + 2)) with false; [reflexivity|].
  symmetry. apply Z.leb_gt. pose proof (u16_range (pc s + 2)). unfold MEM_SIZE. lia.
Qed.

Lemma loop_iter_continue s :
  wf_state s -> Z.even (pc s) = true ->
  exists inst, fetch s = Some inst
    /\ loop_iter s = Continue (pass_event inst s) (pass_state inst s).
Proof.
  intros Hwf He. destruct (fetch_in_range s Hwf He) as [inst Hf].
  exists inst. split; [assumption|].
  apply loop_iter_fetched; [apply Hwf | assumption].
Qed.

Lemma loop_iter_continue_inv s e s' :
  loop_iter s = Continue e s' ->
  exists inst, fetch s = Some inst /\ e = pass_event inst s /\ s' = pass_state inst s.
Proof.
  unfold loop_iter. destruct (pc s <? MEM_SIZE); [|discriminate].
  destruct (fetch s) as [inst|]; [|discriminate].
  destruct (ex_ret _ =? 0); [discriminate|].
  destruct (MEM_SIZE <=? _); [discriminate|].
  intros [= <- <-]. exists inst. auto.
Qed.

Lemma pass_state_wf inst s : wf_state s -> wf_state (pass_state inst s).
Proof. apply execute_wf. Qed.

Lemma pass_state_pc inst s : pc (pass_state inst s) = u16 (pc s + 2).
Proof. apply execute_pc. Qed.

(** The invariant of the loop. *)
Lemma reachable_inv file s :
  reachable file s -> wf_state s /\ Z.even (pc s) = true.
Proof.
  induction 1 as [|s e s' _ [IHwf IHe] Hstep].
  - split; [apply initial_wf | reflexivity].
  - apply loop_iter_continue_inv in Hstep as (inst & _ & _ & ->).
    split; [now apply pass_state_wf|].
    rewrite pass_state_pc. now apply even_advance.
Qed.

(** A pass never leaves the loop: from a well-formed state with an even
    [pc], [n] passes print [n] lines and are still running. *)
Lemma run_keeps_running n :
  forall s, wf_state s -> Z.even (pc s) = true ->
  exists t s', run n s = (t, RUNNING, s')
    /\ length t = n /\ pc s' = u16 (pc s + 2 * Z.of_nat n)
    /\ wf_state s' /\ Z.even (pc s') = true.
Proof.
  induction n as [|n IH]; intros s Hwf He.
  - exists [], s. simpl. repeat split; try assumption; try apply Hwf.
    destruct Hwf as [_ _ _ Hp]. unfold u16. lia.
  - destruct (loop_iter_continue s Hwf He) as (inst & _ & Hstep).
    destruct (IH (pass_state inst s)) as (t & s' & Hrun & Hlen & Hpc & Hwf' & He').
    { now apply pass_state_wf. }
    { rewrite pass_state_pc. now apply even_advance. }
    exists (pass_event inst s :: t), s'.
    simpl run. rewrite Hstep, Hrun. repeat split; try assumption; try apply Hwf'.
    + simpl. now rewrite Hlen.
    + rewrite Hpc, pass_state_pc. unfold u16. lia.
Qed.

(** ** The states of a run in closed form *)

Lemma reg_of_zeros (s : State) i : regs s = replicate 8%nat 0 -> reg s i = 0.
Proof.
  intros Hz. unfold reg. rewrite Hz.
  destruct (replicate 8%nat 0 !! Z.to_nat i) as [v|] eqn:Hv; [|reflexivity].
  apply lookup_replicate in Hv as [-> _]. reflexivity.
Qed.

Lemma pass_state_zero_regs inst s :
  regs s = replicate 8%nat 0 -> regs (pass_state inst s) = replicate 8%nat 0.
Proof.
  intros Hz. unfold pass_state. rewrite execute_regs.
  destruct (exec_switch_regs inst s) as [-> | [(_ & _ & _ & ->) | (_ & _ & _ & ->)]];
    [assumption| |];
    rewrite !(reg_of_zeros s) by assumption; rewrite Hz;
    change (u16 (0 + 0)) with 0; change (u16 (0 - 0)) with 0;
    apply insert_replicate.
Qed.

Lemma State_eq (a b : State) :
  memory a = memory b -> regs a = regs b -> pc a = pc b -> a = b.
Proof. destruct a, b; simpl; intros -> -> ->; reflexivity. Qed.

Lemma pass_at_wf file k : wf_state (pass_at file k) /\ Z.even (pc (pass_at file k)) = true.
Proof.
  split; [split|]; simpl.
  - apply loadMemoryFromFile_length.
  - reflexivity.
  - repeat constructor; lia.
  - apply u16_range.
  - apply Z.even_spec. exists (Z.of_nat k mod 32768). unfold u16. lia.
Qed.

Lemma pass_at_next file k inst :
  pass_state inst (pass_at file k) = pass_at file (S k).
Proof.
  apply State_eq.
  - unfold pass_state. rewrite execute_memory. cbn [memory pass_at]. reflexivity.
  - apply pass_state_zero_regs. cbn [regs pass_at]. reflexivity.
  - rewrite pass_state_pc. cbn [pc pass_at]. unfold u16. lia.
Qed.

Lemma pass_at_step file k :
  loop_iter (pass_at file k) = Continue (line_at file k) (pass_at file (S k)).
Proof.
  destruct (pass_at_wf file k) as [Hwf He].
  destruct (loop_iter_continue _ Hwf He) as (inst & Hf & Hstep).
  unfold line_at. rewrite Hf, Hstep, pass_at_next. reflexivity.
Qed.

Lemma run_from_pass file n :
  forall k, run n (pass_at file k)
            = (map (line_at file) (seq k n), RUNNING, pass_at file (k + n)).
Proof.
  induction n as [|n IH]; intros k; simpl.
  - rewrite Nat.add_0_r. reflexivity.
  - rewrite pass_at_step, IH, Nat.add_succ_r. reflexivity.
Qed.

(** ** System instructions: the halt service *)

(** C1.  The word 0x00C7 is a System instruction (opcode 7) with service
    number 3.  The header of the source file and the comment above
    [executeInstruction] say that it ends the simulation; the code compares
    an 8-bit [svc] with 0x3FF, so the call returns 1 and advances [pc] by 2
    like any other word.  No word makes [executeInstruction] return 0: in
    the image [li t0, 5; ecall 3] the pass after the ecall fetches at
    address 4, and from any image the loop is still running after any
    number of passes. *)
Theorem ecall3_does_not_halt :
  opcode_of 0x00C7 = 7 /\ svc_of 0x00C7 = 3
  /\ (forall s, ex_ret (executeInstruction 0x00C7 s) = 1
                /\ pc (ex_state (executeInstruction 0x00C7 s)) = u16 (pc s + 2))
  /\ (forall inst s, ex_ret (executeInstruction inst s) = 1)
  /\ map ev_addr (run 3 (initial two_lines)).1.1 = [0; 2; 4]
  /\ (forall file n, (run n (initial file)).1.2 = RUNNING).
Proof.
  split; [reflexivity|]. split; [reflexivity|]. split; [|split; [|split]].
  - intros s. now rewrite execute_ret, execute_pc.
  - apply execute_ret.
  - reflexivity.
  - intros file n.
    destruct (run_keeps_running n (initial file) (initial_wf file) eq_refl)
      as (t & s' & -> & _).
    reflexivity.
Qed.

(** ** I-type words: the immediate field *)

(** C2.  [executeInstruction] reads the 7-bit field [15:9] (mask 0x7F), as
    the layout comment of line 93 says; [disassemble] masks the same shift
    with 0xF and so keeps only the low four bits.  The two agree exactly on
    the words whose immediate is below 16; on 0x2039 ([li t0, 16]) the
    executor decodes 16 and the disassembler prints 0. *)
Theorem imm_disasm_exec_disagree :
  opcode_of 0x2039 = 1 /\ funct3_of 0x2039 = 7
  /\ exec_imm7 0x2039 = 16 /\ disasm_imm7 0x2039 = 0
  /\ dis_out (disassemble 0x2039 0) = "li t0, 0"%string
  /\ (forall inst, exec_imm7 inst = Z.land (Z.shiftr inst 9) 127)
  /\ (forall inst, disasm_imm7 inst = exec_imm7 inst mod 16)
  /\ (forall inst, disasm_imm7 inst = exec_imm7 inst <-> exec_imm7 inst < 16).
Proof.
  repeat (split; [reflexivity|]). split; [|split].
  - intros inst. fields. lia.
  - intros inst. fields. lia.
  - intros inst. fields. lia.
Qed.

(** C3.  The word 0x0A39 is [li t0, 5] (opcode 1, funct3 7, immediate 5,
    register 0).  The I-type case of [executeInstruction] decodes these
    fields and then does nothing with them: from a zeroed register file
    register t0 is still 0 afterwards.  [pc] advances by 2 and nothing else
    changes, as for every I-type word. *)
Theorem li_leaves_t0_zero :
  opcode_of 0x0A39 = 1 /\ funct3_of 0x0A39 = 7
  /\ exec_imm7 0x0A39 = 5 /\ exec_simm 0x0A39 = 5 /\ rd_rs1_of 0x0A39 = 0
  /\ dis_out (disassemble 0x0A39 0) = "li t0, 5"%string
  /\ (forall m p,
        executeInstruction 0x0A39 (mkState m (replicate 8%nat 0) p)
        = mkExecuted 1 EmptyString (mkState m (replicate 8%nat 0) (u16 (p + 2))))
  /\ (forall m p,
        reg (ex_state (executeInstruction 0x0A39 (mkState m (replicate 8%nat 0) p))) 0 = 0).
Proof.
  repeat (split; [reflexivity|]). split; intros m p; reflexivity.
Qed.

(** ** U-type words: the assembled immediate *)

(** C4.  Line 198 shifts the word left by 9 before masking with 0x3F, so
    the high part of the immediate is 0 for every word: the value printed
    for lui and auipc is the low field at bits [9:7] alone.  Its low seven
    bits are zero, but it never reaches 1024; on 0x0206 (high field 1) the
    layout gives 1024 and the disassembler prints 0. *)
Theorem upper_imm_drops_high_field :
  (forall inst, upper_imm_high inst = 0)
  /\ (forall inst, upper_imm inst = Z.shiftl (upper_imm_low inst) 7)
  /\ (forall inst, upper_imm inst mod 128 = 0 /\ 0 <= upper_imm inst < 1024)
  /\ opcode_of 0x0206 = 6
  /\ upper_imm_layout 0x0206 = 1024
  /\ upper_imm 0x0206 = 0
  /\ dis_out (disassemble 0x0206 0) = "lui t0, 0"%string.
Proof.
  assert (Hhigh : forall inst, upper_imm_high inst = 0).
  { intros inst. unfold upper_imm_high, u8. rewrite land_63.
    rewrite Z.shiftl_mul_pow2 by lia. change (2 ^ 9) with 512. lia. }
  assert (Himm : forall inst, upper_imm inst = Z.shiftl (upper_imm_low inst) 7).
  { intros inst. unfold upper_imm. rewrite Hhigh.
    rewrite Z.shiftl_0_l, Z.lor_0_l.
    rewrite Z.shiftl_mul_pow2 by lia. change (2 ^ 7) with 128.
    fields. lia. }
  split; [exact Hhigh|]. split; [exact Himm|]. split.
  - intros inst. rewrite Himm.
    rewrite Z.shiftl_mul_pow2 by lia. change (2 ^ 7) with 128.
    fields. lia.
  - repeat split; reflexivity.
Qed.

(** ** Dispatch on the opcode *)

(** C5.  [disassemble] has a case for each of the opcodes 0..7 and never
    reaches its [default] label (the only place that writes [buf]).
    [executeInstruction] has no case for opcode 4: those words, and only
    those, reach its [default] label and print the unknown-opcode line;
    0x0004 is such a word. *)
Theorem executor_misses_opcode_4 :
  (forall inst pc0, dis_buf (disassemble inst pc0) = None)
  /\ (forall inst s,
        sw_out (exec_switch inst s)
        = if opcode_of inst =? 4
          then ("Unknown instruction opcode 0x4" ^^ nl)%string
          else EmptyString)
  /\ opcode_of 0x0004 = 4
  /\ dis_out (disassemble 0x0004 0) = "lb t0, 0(t0)"%string
  /\ (forall s, ex_out (executeInstruction 0x0004 s)
                = ("Unknown instruction opcode 0x4" ^^ nl)%string).
Proof.
  split; [|split].
  - intros inst pc0. pose proof (opcode_of_range inst) as Hr.
    unfold disassemble.
    repeat match goal with
    | |- context [if ?b then _ else _] => destruct b eqn:?; [reflexivity|]
    end.
    exfalso.
    repeat match goal with
    | H : (_ =? _) = false |- _ => apply Z.eqb_neq in H
    end.
    lia.
  - intros inst s. pose proof (opcode_of_range inst) as Hr.
    assert (Hcases : opcode_of inst = 0 \/ opcode_of inst = 1 \/ opcode_of inst = 2
                     \/ opcode_of inst = 3 \/ opcode_of inst = 4 \/ opcode_of inst = 5
                     \/ opcode_of inst = 6 \/ opcode_of inst = 7) by lia.
    unfold exec_switch.
    destruct Hcases as [H|[H|[H|[H|[H|[H|[H|H]]]]]]]; rewrite H; simpl;
      split_ifs; reflexivity.
  - repeat split; reflexivity.
Qed.

(** ** The end of the address space *)

Lemma reachable_two_lines :
  reachable two_lines (mkState (loadMemoryFromFile two_lines) (replicate 8%nat 0) 4).
Proof.
  eapply reach_next; [eapply reach_next; [apply reach_init|]|]; reflexivity.
Defined.





(** ** R-type words: add and sub *)

Lemma reg_range s i :
  Forall (fun v => 0 <= v < 65536) (regs s) -> 0 <= reg s i < 65536.
Proof.
  intros Hr. unfold reg.
  destruct (regs s !! Z.to_nat i) as [v|] eqn:Hv; simpl; [|lia].
  exact (proj1 (Forall_lookup _ _) Hr _ _ Hv).
Qed.

(** C7.  For an R-type word with funct3 = 0 and funct4 = 0 (add) or 1 (sub),
    the destination register afterwards holds the sum, respectively the
    difference, of the two source registers modulo 2^16.  The sum and the
    difference are formed in [int] and stay within its range, so only the
    conversion back to [uint16_t] wraps.  No other register and no memory
    byte changes. *)
Theorem regreg_add_sub_wrap (inst : Z) (s : State)
  (Hlen : length (regs s) = 8%nat)
  (Hrng : Forall (fun v => 0 <= v < 65536) (regs s))
  (Hop : opcode_of inst = 0)
  (H3 : funct3_of inst = 0)
  (H4 : funct4_of inst = 0 \/ funct4_of inst = 1) :
  reg (ex_state (executeInstruction inst s)) (rd_rs1_of inst)
  = (if funct4_of inst =? 0
     then reg s (rd_rs1_of inst) + reg s (rs2_of inst)
     else reg s (rd_rs1_of inst) - reg s (rs2_of inst)) mod 2 ^ 16
  /\ - 2 ^ 31 <= reg s (rd_rs1_of inst) - reg s (rs2_of inst)
  /\ reg s (rd_rs1_of inst) + reg s (rs2_of inst) < 2 ^ 31
  /\ (forall j, 0 <= j -> j <> rd_rs1_of inst ->
        reg (ex_state (executeInstruction inst s)) j = reg s j)
  /\ memory (ex_state (executeInstruction inst s)) = memory s.
Proof.
  pose proof (rd_rs1_of_range inst) as Hrd.
  pose proof (reg_range s (rd_rs1_of inst) Hrng) as Ha.
  pose proof (reg_range s (rs2_of inst) Hrng) as Hb.
  assert (Hsw : sw_state (exec_switch inst s)
                = set_reg s (rd_rs1_of inst)
                    (u16 (if funct4_of inst =? 0
                          then reg s (rd_rs1_of inst) + reg s (rs2_of inst)
                          else reg s (rd_rs1_of inst) - reg s (rs2_of inst)))).
  { unfold exec_switch. rewrite Hop, H3.
    destruct H4 as [-> | ->]; reflexivity. }
  rewrite execute_unfold, Hsw. cbn [ex_state].
  change (2 ^ 16) with 65536. change (2 ^ 31) with 2147483648.
  repeat split; try lia.
  - unfold reg at 1. cbn [regs set_pc set_reg].
    rewrite list_lookup_insert_eq by lia. reflexivity.
  - intros j Hj Hne. unfold reg at 1. cbn [regs set_pc set_reg].
    rewrite list_lookup_insert_ne by lia. reflexivity.
Qed.

Lemma regs_40000_range : Forall (fun v => 0 <= v < 65536) (regs regs_40000).
Proof. unfold regs_40000; simpl. repeat constructor; lia. Defined.

(** [add ra, ra] with ra = 40000 wraps to 14464; [sub ra, ra] gives 0. *)
Lemma regreg_add_sub_wrap_witness :
  (opcode_of 0x0240 = 0 /\ funct3_of 0x0240 = 0 /\ funct4_of 0x0240 = 0
   /\ reg (ex_state (executeInstruction 0x0240 regs_40000)) 1 = 14464)
  /\ (opcode_of 0x1240 = 0 /\ funct3_of 0x1240 = 0 /\ funct4_of 0x1240 = 1
      /\ reg (ex_state (executeInstruction 0x1240 regs_40000)) 1 = 0).
Proof.
  split; (split; [reflexivity|]); (split; [reflexivity|]); (split; [reflexivity|]).
  - exact (eq_trans
      (proj1 (regreg_add_sub_wrap 0x0240 regs_40000 eq_refl regs_40000_range
                eq_refl eq_refl (or_introl eq_refl))) eq_refl).
  - exact (eq_trans
      (proj1 (regreg_add_sub_wrap 0x1240 regs_40000 eq_refl regs_40000_range
                eq_refl eq_refl (or_intror eq_refl))) eq_refl).
Defined.

(** ** The program counter *)

(** C8.  In every state the loop reaches from the initial state of any
    image, [pc] is even. *)
Theorem pc_always_even (file : list Z) (s : State) :
  reachable file s -> Z.even (pc s) = true.
Proof. intros Hs. exact (proj2 (reachable_inv file s Hs)). Qed.

Lemma pc_always_even_witness :
  reachable two_lines (mkState (loadMemoryFromFile two_lines) (replicate 8%nat 0) 4)
  /\ Z.even (pc (mkState (loadMemoryFromFile two_lines) (replicate 8%nat 0) 4)) = true.
Proof.
  split; [exact reachable_two_lines|].
  exact (pc_always_even two_lines _ reachable_two_lines).
Defined.

(** ** Determinism of a run *)









(** ** The frame of the executor *)

(** C10.  For a word whose opcode is neither 0 nor 7, [executeInstruction]
    leaves the register file and the memory as they were and sets [pc] to
    [pc + 2] (in 16 bits).  For any word at all, the memory is unchanged and
    the register file is either unchanged or differs in the one cell
    written by the R-type add (funct4 0, funct3 0) or sub (funct4 1,
    funct3 0). *)
Theorem executor_frame (inst : Z) (s : State)
  (H0 : opcode_of inst <> 0) (H7 : opcode_of inst <> 7) :
  regs (ex_state (executeInstruction inst s)) = regs s
  /\ memory (ex_state (executeInstruction inst s)) = memory s
  /\ pc (ex_state (executeInstruction inst s)) = (pc s + 2) mod 2 ^ 16
  /\ (forall w s0,
        memory (ex_state (executeInstruction w s0)) = memory s0
        /\ (regs (ex_state (executeInstruction w s0)) = regs s0
            \/ (opcode_of w = 0 /\ funct3_of w = 0 /\ funct4_of w = 0
                /\ regs (ex_state (executeInstruction w s0))
                   = <[Z.to_nat (rd_rs1_of w) :=
                         u16 (reg s0 (rd_rs1_of w) + reg s0 (rs2_of w))]> (regs s0))
            \/ (opcode_of w = 0 /\ funct3_of w = 0 /\ funct4_of w = 1
                /\ regs (ex_state (executeInstruction w s0))
                   = <[Z.to_nat (rd_rs1_of w) :=
                         u16 (reg s0 (rd_rs1_of w) - reg s0 (rs2_of w))]> (regs s0)))).
Proof.
  split; [|split; [|split]].
  - rewrite execute_regs.
    destruct (exec_switch_regs inst s) as [H | [(H & _) | (H & _)]];
      [exact H | contradiction | contradiction].
  - apply execute_memory.
  - apply execute_pc.
  - intros w s0. split; [apply execute_memory|].
    rewrite execute_regs. apply exec_switch_regs.
Qed.

Lemma executor_frame_witness :
  opcode_of 0x0A39 <> 0 /\ opcode_of 0x0A39 <> 7
  /\ regs (ex_state (executeInstruction 0x0A39 regs_40000)) = [0; 40000; 0; 0; 0; 0; 0; 0]
  /\ pc (ex_state (executeInstruction 0x0A39 regs_40000)) = 2.
Proof.
  assert (H0 : opcode_of 0x0A39 <> 0) by (vm_compute; discriminate).
  assert (H7 : opcode_of 0x0A39 <> 7) by (vm_compute; discriminate).
  destruct (executor_frame 0x0A39 regs_40000 H0 H7) as (Hr & _ & Hp & _).
  split; [exact H0|]. split; [exact H7|]. split; [exact Hr | exact Hp].
Defined.

(** * Further properties of the code *)

(** ** The loaded image *)

Lemma loadMemoryFromFile_lookup (file : list Z) (i : nat) :
  Z.of_nat i < MEM_SIZE ->
  loadMemoryFromFile file !! i = Some (default 0 (file !! i)).
Proof.
  intros Hi. unfold loadMemoryFromFile, MEM_SIZE in *.
  destruct (decide (i < length file)%nat) as [Hlt|Hge].
  - rewrite lookup_app_l by (rewrite length_take; lia).
    rewrite lookup_take. destruct (decide (i < Z.to_nat 65536)%nat); [|lia].
    destruct (lookup_lt_is_Some_2 file i Hlt) as [b ->]. reflexivity.
  - rewrite lookup_app_r by (rewrite length_take; lia).
    rewrite length_take, (lookup_ge_None_2 file i) by lia.
    apply lookup_replicate_2. lia.
Qed.

(** X1.  After loading, every cell of [memory] below [MEM_SIZE] holds the
    byte of the file at that offset, or 0 where the file has ended. *)
Theorem load_lookup (file : list Z) (i : nat) :
  Z.of_nat i < MEM_SIZE ->
  loadMemoryFromFile file !! i = Some (default 0 (file !! i)).
Proof. apply loadMemoryFromFile_lookup. Qed.

Lemma load_lookup_witness :
  Z.of_nat 1 < MEM_SIZE
  /\ loadMemoryFromFile two_lines !! 1%nat = Some 0x0A
  /\ loadMemoryFromFile two_lines !! 4%nat = Some 0.
Proof.
  split; [reflexivity|]. split.
  - exact (load_lookup two_lines 1 eq_refl).
  - exact (load_lookup two_lines 4 eq_refl).
Defined.

Lemma load_full (m : list Z) :
  length m = Z.to_nat MEM_SIZE -> loadMemoryFromFile m = m.
Proof.
  intros Hlen. unfold loadMemoryFromFile.
  rewrite take_ge by lia. rewrite Hlen, Nat.sub_diag. apply app_nil_r.
Qed.

(** X2.  The loaded memory always has [MEM_SIZE] cells; bytes of the file
    from offset [MEM_SIZE] on are never read; and a memory dump loads back
    to itself. *)
Theorem load_shape (file : list Z) :
  Z.of_nat (length (loadMemoryFromFile file)) = MEM_SIZE
  /\ loadMemoryFromFile (take (Z.to_nat MEM_SIZE) file) = loadMemoryFromFile file
  /\ loadMemoryFromFile (loadMemoryFromFile file) = loadMemoryFromFile file.
Proof.
  split; [|split].
  - rewrite loadMemoryFromFile_length. unfold MEM_SIZE. lia.
  - unfold loadMemoryFromFile. rewrite take_take, Nat.min_id, length_take.
    f_equal. f_equal. lia.
  - apply load_full, loadMemoryFromFile_length.
Qed.

(** X3.  The byte count in the load message is the number of bytes copied
    from the file, that is the length of the file capped at [MEM_SIZE]; the
    memory is exactly that many leading bytes of the file followed by zeros
    up to [MEM_SIZE] cells. *)
Theorem loaded_count_exact (file : list Z) :
  loaded_count file = Z.of_nat (length (take (Z.to_nat MEM_SIZE) file))
  /\ 0 <= loaded_count file <= MEM_SIZE
  /\ loadMemoryFromFile file
     = take (Z.to_nat (loaded_count file)) file
         ++ replicate (Z.to_nat (MEM_SIZE - loaded_count file)) 0.
Proof.
  unfold loaded_count, loadMemoryFromFile, MEM_SIZE.
  rewrite length_take. split; [lia|]. split; [lia|].
  destruct (Z.le_gt_cases (Z.of_nat (length file)) 65536) as [Hle|Hgt].
  - rewrite Z.min_l by assumption. rewrite Nat2Z.id.
    rewrite !take_ge by lia. f_equal. f_equal. lia.
  - rewrite Z.min_r by lia. f_equal. f_equal. lia.
Qed.

Example loaded_count_two_lines :
  loaded_count two_lines = 4
  /\ loaded_count (loadMemoryFromFile two_lines ++ [1; 2; 3]) = MEM_SIZE.
Proof.
  split; [reflexivity|]. unfold loaded_count.
  rewrite length_app, loadMemoryFromFile_length. unfold MEM_SIZE. simpl length. lia.
Qed.

(** ** Fetching a word *)

Lemma lor_high_byte lo hi :
  0 <= lo < 256 -> Z.lor lo (Z.shiftl hi 8) = lo + 256 * hi.
Proof.
  intros Hlo.
  assert (Hdisj : Z.land lo (Z.shiftl hi 8) = 0).
  { apply Z.bits_inj'. intros n Hn.
    rewrite Z.land_spec, Z.bits_0.
    destruct (Z.lt_ge_cases n 8) as [Hlt|Hge].
    - rewrite Z.shiftl_spec_low by assumption. apply andb_false_r.
    - assert (Hz : Z.testbit lo n = false).
      { apply Z.testbit_false; [assumption|].
        rewrite Z.div_small; [reflexivity|].
        split; [lia|].
        apply Z.lt_le_trans with (2 ^ 8); [simpl; lia|].
        apply Z.pow_le_mono_r; lia. }
      now rewrite Hz. }
  rewrite <- Z.lxor_lor by assumption.
  rewrite <- Z.add_nocarry_lxor by assumption.
  rewrite Z.shiftl_mul_pow2 by lia. change (2 ^ 8) with 256. lia.
Qed.

(** X4.  The fetched word is little-endian: the byte at [pc] is its low
    byte and the byte at [pc + 1] its high byte. *)
Theorem fetch_little_endian (s : State) (lo hi : Z) :
  0 <= pc s -> pc s + 1 < MEM_SIZE ->
  memory s !! Z.to_nat (pc s) = Some lo ->
  memory s !! Z.to_nat (pc s + 1) = Some hi ->
  0 <= lo < 256 -> 0 <= hi < 256 ->
  fetch s = Some (lo + 256 * hi)
  /\ (lo + 256 * hi) mod 256 = lo
  /\ (lo + 256 * hi) / 256 = hi.
Proof.
  intros Hp0 Hp1 Hlo Hhi Rlo Rhi. unfold fetch, mem_read, MEM_SIZE in *.
  replace ((0 <=? pc s) && (pc s <? 65536)) with true
    by (symmetry; apply andb_true_iff; lia).
  replace ((0 <=? pc s + 1) && (pc s + 1 <? 65536)) with true
    by (symmetry; apply andb_true_iff; lia).
  rewrite Hlo, Hhi, lor_high_byte by assumption.
  unfold u16. split; [|lia]. f_equal. lia.
Qed.

Lemma fetch_little_endian_witness :
  fetch (mkState two_lines (replicate 8%nat 0) 2) = Some 0x00C7
  /\ 0x00C7 mod 256 = 0xC7 /\ 0x00C7 / 256 = 0x00.
Proof.
  apply (fetch_little_endian (mkState two_lines (replicate 8%nat 0) 2) 0xC7 0x00);
    simpl; first [reflexivity | lia].
Defined.

(** ** What a run can reach *)

(** X5.  No program changes the machine: in every state a run reaches, all
    eight registers are still 0 and the memory is the loaded image.  (The
    only register writes are add and sub, and the registers start at 0.) *)
Theorem reachable_regs_zero (file : list Z) (s : State) :
  reachable file s ->
  regs s = replicate 8%nat 0 /\ memory s = loadMemoryFromFile file.
Proof.
  induction 1 as [|s e s' _ [IHr IHm] Hstep].
  - split; reflexivity.
  - apply loop_iter_continue_inv in Hstep as (inst & _ & _ & ->). split.
    + now apply pass_state_zero_regs.
    + unfold pass_state. now rewrite execute_memory.
Qed.

Lemma reachable_regs_zero_witness :
  reachable two_lines (mkState (loadMemoryFromFile two_lines) (replicate 8%nat 0) 4)
  /\ regs (mkState (loadMemoryFromFile two_lines) (replicate 8%nat 0) 4)
     = replicate 8%nat 0.
Proof.
  split; [exact reachable_two_lines|].
  exact (proj1 (reachable_regs_zero two_lines _ reachable_two_lines)).
Defined.

(** ** The trace of a run *)

(** X6.  The whole behaviour of a run in closed form.  After [n] passes
    the loop is running, [pc] is 2n mod 65536, registers are 0 and memory is
    the image; line [k] of the trace is the disassembly of the word at
    address 2k mod 65536 of the image, independent of all earlier lines. *)
Theorem run_closed_form (file : list Z) (n : nat) :
  run n (initial file) = (map (line_at file) (seq 0 n), RUNNING, pass_at file n)
  /\ (forall k, loop_iter (pass_at file k)
                = Continue (line_at file k) (pass_at file (S k)))
  /\ (forall k, ev_addr (line_at file k) = (2 * Z.of_nat k) mod 65536
                /\ exists inst, fetch (pass_at file k) = Some inst
                     /\ ev_text (line_at file k) = dis_out (disassemble inst 0)).
Proof.
  split; [|split].
  - exact (run_from_pass file n 0%nat).
  - intros k. apply pass_at_step.
  - intros k. destruct (pass_at_wf file k) as [Hwf He].
    destruct (fetch_in_range _ Hwf He) as [inst Hf].
    unfold line_at. rewrite Hf. split; [reflexivity|].
    exists inst. split; reflexivity.
Qed.

Lemma pass_at_period file k : pass_at file (Z.to_nat 32768 + k) = pass_at file k.
Proof.
  unfold pass_at. f_equal. rewrite Nat2Z.inj_add, Z2Nat.id by lia.
  unfold u16. lia.
Qed.

Lemma run_repeats file (P n : nat) :
  pass_at file P = pass_at file 0 ->
  (run P (pass_at file 0)).2 = pass_at file 0
  /\ (run P (pass_at file 0)).1.2 = RUNNING
  /\ length (run P (pass_at file 0)).1.1 = P
  /\ (run (P + n) (pass_at file 0)).1.1
     = (run P (pass_at file 0)).1.1 ++ (run n (pass_at file 0)).1.1.
Proof.
  intros Hp.
  pose proof (run_from_pass file n P) as Hn.
  rewrite Hp, (run_from_pass file n 0) in Hn.
  injection Hn as Hn _.
  rewrite !run_from_pass. cbn [fst snd]. rewrite !Nat.add_0_l.
  split; [exact Hp|]. split; [reflexivity|].
  split; [rewrite length_map, length_seq; reflexivity|].
  rewrite seq_app, map_app, Nat.add_0_l. f_equal. symmetry. exact Hn.
Qed.

(** X7.  A run repeats itself: after exactly 32768 passes the machine is
    again in its initial state (still running, [pc] back at 0, registers and
    memory as loaded), so the lines printed from then on are the lines
    printed from the start, with period 32768. *)
Theorem trace_period (file : list Z) (n : nat) :
  (run (Z.to_nat 32768) (initial file)).2 = initial file
  /\ (run (Z.to_nat 32768) (initial file)).1.2 = RUNNING
  /\ length (run (Z.to_nat 32768) (initial file)).1.1 = Z.to_nat 32768
  /\ (run (Z.to_nat 32768 + n) (initial file)).1.1
     = (run (Z.to_nat 32768) (initial file)).1.1 ++ (run n (initial file)).1.1.
Proof.
  pose proof (pass_at_period file 0) as Hp. rewrite Nat.add_0_r in Hp.
  exact (run_repeats file (Z.to_nat 32768) n Hp).
Qed.

(** ** The process *)

(** X9.  [main] leaves with status 1 exactly when it was not given one
    argument or the file cannot be opened, and then prints nothing on
    standard output.  With a file it can open it never leaves: after any
    number of passes it is still in its loop, having printed the load
    message and one line per pass.  It never returns 0. *)
Theorem main_never_returns (passes : nat) (argv0 : string)
    (args : list string) (fopen : string -> string + list Z) :
  main passes argv0 args fopen
  = match args with
    | [path] =>
        match fopen path with
        | inl err =>
            mkProcess EmptyString
              ("Error opening binary file: " ^^ err ^^ nl) (Exited 1)
        | inr file =>
            mkProcess
              (load_message file
                 ^^ String.concat EmptyString
                      (map render (map (line_at file) (seq 0 passes))))
              EmptyString StillRunning
        end
    | _ =>
        mkProcess EmptyString
          ("Usage: " ^^ argv0 ^^ " <machine_code_file>" ^^ nl) (Exited 1)
    end.
Proof.
  unfold main.
  destruct args as [|path [|? ?]]; try reflexivity.
  destruct (fopen path) as [err|file]; [reflexivity|].
  change (initial file) with (pass_at file 0).
  rewrite run_from_pass. reflexivity.
Qed.

(** ** The executor on every word *)

(** X10.  No word is a control-flow instruction for the executor: whatever
    the word (jr, jalr, branch and jump encodings included), the call
    returns 1, sets [pc] to [pc + 2] modulo 2^16, leaves the memory alone
    and keeps the size of the register file. *)
Theorem executor_never_jumps (inst : Z) (s : State) :
  ex_ret (executeInstruction inst s) = 1
  /\ pc (ex_state (executeInstruction inst s)) = (pc s + 2) mod 2 ^ 16
  /\ memory (ex_state (executeInstruction inst s)) = memory s
  /\ length (regs (ex_state (executeInstruction inst s))) = length (regs s).
Proof.
  split; [apply execute_ret|]. split; [apply execute_pc|].
  split; [apply execute_memory|].
  rewrite execute_regs.
  destruct (exec_switch_regs inst s) as [-> | [(_ & _ & _ & ->) | (_ & _ & _ & ->)]];
    rewrite ?length_insert; reflexivity.
Qed.

(** X11.  The executor keeps the globals well formed: the arrays keep
    their sizes, every register stays within 16 bits, and so does [pc]. *)
Theorem executor_keeps_wf (inst : Z) (s : State) :
  wf_state s -> wf_state (ex_state (executeInstruction inst s)).
Proof. apply execute_wf. Qed.

Lemma executor_keeps_wf_witness :
  wf_state (initial two_lines)
  /\ wf_state (ex_state (executeInstruction 0x0240 (initial two_lines))).
Proof.
  split; [exact (initial_wf two_lines)|].
  exact (executor_keeps_wf 0x0240 (initial two_lines) (initial_wf two_lines)).
Defined.

Lemma execute_add_regs inst s :
  opcode_of inst = 0 -> funct3_of inst = 0 -> funct4_of inst = 0 ->
  regs (ex_state (executeInstruction inst s))
  = <[Z.to_nat (rd_rs1_of inst) :=
        u16 (reg s (rd_rs1_of inst) + reg s (rs2_of inst))]> (regs s).
Proof.
  intros Hop H3 H4. rewrite execute_regs. unfold exec_switch.
  rewrite Hop, H3, H4. reflexivity.
Qed.

Lemma execute_sub_regs inst s :
  opcode_of inst = 0 -> funct3_of inst = 0 -> funct4_of inst = 1 ->
  regs (ex_state (executeInstruction inst s))
  = <[Z.to_nat (rd_rs1_of inst) :=
        u16 (reg s (rd_rs1_of inst) - reg s (rs2_of inst))]> (regs s).
Proof.
  intros Hop H3 H4. rewrite execute_regs. unfold exec_switch.
  rewrite Hop, H3, H4. reflexivity.
Qed.

(** X12.  sub undoes add: executing [add rd, rs] and then [sub rd, rs] with
    two different registers gives back the register file it started from,
    whatever wrapped in between. *)
Theorem add_then_sub (wa ws : Z) (s : State)
  (Hlen : length (regs s) = 8%nat)
  (Hrng : Forall (fun v => 0 <= v < 65536) (regs s))
  (Ha : opcode_of wa = 0 /\ funct3_of wa = 0 /\ funct4_of wa = 0)
  (Hs : opcode_of ws = 0 /\ funct3_of ws = 0 /\ funct4_of ws = 1)
  (Hrd : rd_rs1_of ws = rd_rs1_of wa)
  (Hrs : rs2_of ws = rs2_of wa)
  (Hne : rd_rs1_of wa <> rs2_of wa) :
  regs (ex_state (executeInstruction ws (ex_state (executeInstruction wa s))))
  = regs s.
Proof.
  destruct Ha as (Ha0 & Ha3 & Ha4). destruct Hs as (Hs0 & Hs3 & Hs4).
  pose proof (rd_rs1_of_range wa) as Rrd. pose proof (rs2_of_range wa) as Rrs.
  pose proof (reg_range s (rd_rs1_of wa) Hrng) as Ra.
  pose proof (reg_range s (rs2_of wa) Hrng) as Rb.
  rewrite (execute_sub_regs ws) by assumption.
  rewrite Hrd, Hrs.
  set (s1 := ex_state (executeInstruction wa s)).
  assert (Hregs1 : regs s1 = <[Z.to_nat (rd_rs1_of wa) :=
             u16 (reg s (rd_rs1_of wa) + reg s (rs2_of wa))]> (regs s))
    by (apply execute_add_regs; assumption).
  assert (Hrd1 : reg s1 (rd_rs1_of wa) = u16 (reg s (rd_rs1_of wa) + reg s (rs2_of wa))).
  { unfold reg at 1. rewrite Hregs1, list_lookup_insert_eq by lia. reflexivity. }
  assert (Hrs1 : reg s1 (rs2_of wa) = reg s (rs2_of wa)).
  { unfold reg at 1. rewrite Hregs1, list_lookup_insert_ne by lia. reflexivity. }
  rewrite Hrd1, Hrs1, Hregs1, list_insert_insert_eq.
  apply list_insert_id.
  destruct (lookup_lt_is_Some_2 (regs s) (Z.to_nat (rd_rs1_of wa))) as [a Hl]; [lia|].
  rewrite Hl. f_equal.
  assert (Hra : reg s (rd_rs1_of wa) = a) by (unfold reg; now rewrite Hl).
  rewrite Hra in *. unfold u16. lia.
Qed.

(** [add ra, sp] then [sub ra, sp] with ra = 40000 and sp = 30000: the sum
    wraps to 4464 and the difference is 40000 again. *)
Lemma add_then_sub_witness :
  regs (ex_state (executeInstruction 0x0440
          (mkState [] [0; 40000; 30000; 0; 0; 0; 0; 0] 0)))
  = [0; 4464; 30000; 0; 0; 0; 0; 0]
  /\ regs (ex_state (executeInstruction 0x1440
            (ex_state (executeInstruction 0x0440
               (mkState [] [0; 40000; 30000; 0; 0; 0; 0; 0] 0)))))
     = [0; 40000; 30000; 0; 0; 0; 0; 0].
Proof.
  split; [reflexivity|].
  apply (add_then_sub 0x0440 0x1440 (mkState [] [0; 40000; 30000; 0; 0; 0; 0; 0] 0)).
  - reflexivity.
  - simpl. repeat constructor; lia.
  - repeat split; reflexivity.
  - repeat split; reflexivity.
  - reflexivity.
  - reflexivity.
  - vm_compute. discriminate.
Defined.

(** ** Field layouts *)

Lemma shiftr_const x k : 0 <= k -> Z.shiftr x k = x / 2 ^ k.
Proof. apply Z.shiftr_div_pow2. Qed.

Lemma shiftr_3 x : Z.shiftr x 3 = x / 8.
Proof. exact (shiftr_const x 3 ltac:(lia)). Qed.

Lemma shiftr_4 x : Z.shiftr x 4 = x / 16.
Proof. exact (shiftr_const x 4 ltac:(lia)). Qed.

Lemma shiftr_6 x : Z.shiftr x 6 = x / 64.
Proof. exact (shiftr_const x 6 ltac:(lia)). Qed.

Lemma shiftr_9 x : Z.shiftr x 9 = x / 512.
Proof. exact (shiftr_const x 9 ltac:(lia)). Qed.

Lemma shiftr_12 x : Z.shiftr x 12 = x / 4096.
Proof. exact (shiftr_const x 12 ltac:(lia)). Qed.

Lemma shiftr_15 x : Z.shiftr x 15 = x / 32768.
Proof. exact (shiftr_const x 15 ltac:(lia)). Qed.

Create Rewrite HintDb z16div.
#[local] Hint Rewrite shiftr_3 shiftr_4 shiftr_6 shiftr_9 shiftr_12 shiftr_15 : z16div.

Ltac fields_div := fields; autorewrite with z16div in *.

(** A field shifted above [k] bits and a value below 2^k do not overlap. *)
Lemma lor_shiftl_add k hi lo :
  0 <= k -> 0 <= lo < 2 ^ k -> Z.lor (Z.shiftl hi k) lo = hi * 2 ^ k + lo.
Proof.
  intros Hk Hlo.
  assert (Hdisj : Z.land (Z.shiftl hi k) lo = 0).
  { apply Z.bits_inj'. intros n Hn.
    rewrite Z.land_spec, Z.bits_0.
    destruct (Z.lt_ge_cases n k) as [Hlt|Hge].
    - now rewrite Z.shiftl_spec_low.
    - assert (Hz : Z.testbit lo n = false).
      { apply Z.testbit_false; [assumption|].
        rewrite Z.div_small; [reflexivity|].
        split; [lia|].
        apply Z.lt_le_trans with (2 ^ k); [lia|].
        apply Z.pow_le_mono_r; lia. }
      rewrite Hz. apply andb_false_r. }
  rewrite <- Z.add_nocarry_lor by assumption.
  now rewrite Z.shiftl_mul_pow2.
Qed.

Lemma rtype_word_sum f4 rs2 rd f3 op :
  0 <= rs2 < 8 -> 0 <= rd < 8 -> 0 <= f3 < 8 -> 0 <= op < 8 ->
  rtype_word f4 rs2 rd f3 op = 4096 * f4 + 512 * rs2 + 64 * rd + 8 * f3 + op.
Proof.
  intros H2 Hd H3 Ho. unfold rtype_word.
  rewrite (lor_shiftl_add 3 f3 op) by (simpl; lia). change (2 ^ 3) with 8.
  rewrite (lor_shiftl_add 6 rd) by (simpl; lia). change (2 ^ 6) with 64.
  rewrite (lor_shiftl_add 9 rs2) by (simpl; lia). change (2 ^ 9) with 512.
  rewrite (lor_shiftl_add 12 f4) by (simpl; lia). change (2 ^ 12) with 4096.
  lia.
Qed.

(** X13.  Encoding then decoding an R-type word gives back every field:
    the five extractors read exactly the bits the layout of line 59 assigns
    to them, and the word fits in 16 bits. *)
Theorem rtype_fields_roundtrip (f4 rs2 rd f3 op : Z) :
  0 <= f4 < 16 -> 0 <= rs2 < 8 -> 0 <= rd < 8 -> 0 <= f3 < 8 -> 0 <= op < 8 ->
  funct4_of (rtype_word f4 rs2 rd f3 op) = f4
  /\ rs2_of (rtype_word f4 rs2 rd f3 op) = rs2
  /\ rd_rs1_of (rtype_word f4 rs2 rd f3 op) = rd
  /\ funct3_of (rtype_word f4 rs2 rd f3 op) = f3
  /\ opcode_of (rtype_word f4 rs2 rd f3 op) = op
  /\ 0 <= rtype_word f4 rs2 rd f3 op < 65536.
Proof.
  intros H4 H2 Hd H3 Ho.
  rewrite rtype_word_sum by assumption.
  repeat split; fields_div; lia.
Qed.

Lemma rtype_fields_roundtrip_witness :
  rtype_word 1 2 1 0 0 = 0x1440
  /\ funct4_of (rtype_word 1 2 1 0 0) = 1
  /\ rs2_of (rtype_word 1 2 1 0 0) = 2.
Proof.
  split; [reflexivity|].
  assert (H : 0 <= 1 < 16 /\ 0 <= 2 < 8 /\ 0 <= 1 < 8 /\ 0 <= 0 < 8) by lia.
  destruct H as (R4 & R2 & Rd & R3).
  destruct (rtype_fields_roundtrip 1 2 1 0 0 R4 R2 Rd R3 R3) as (H4 & H2 & _).
  split; assumption.
Defined.

(** X14.  Decoding then encoding gives back the word: the five fields
    cover the 16 bits of a word without gap or overlap. *)
Theorem rtype_fields_cover (inst : Z) :
  0 <= inst < 65536 ->
  rtype_word (funct4_of inst) (rs2_of inst) (rd_rs1_of inst)
    (funct3_of inst) (opcode_of inst) = inst.
Proof.
  intros Hi.
  rewrite rtype_word_sum
    by (first [apply rs2_of_range | apply rd_rs1_of_range | apply opcode_of_range
              | fields_div; lia]).
  fields_div. lia.
Qed.

Lemma rtype_fields_cover_witness :
  rtype_word (funct4_of 0xBEEF) (rs2_of 0xBEEF) (rd_rs1_of 0xBEEF)
    (funct3_of 0xBEEF) (opcode_of 0xBEEF) = 0xBEEF.
Proof. apply rtype_fields_cover. lia. Defined.

(** ** Immediates as the disassembler prints them *)

(** X15.  The immediate printed for j and jal is 16 times the field [14:9]
    plus 2 times the field [5:3]: always even, never negative, at most
    1022. *)
Theorem jump_imm_value (inst : Z) :
  jump_imm inst = 16 * ((inst / 512) mod 64) + 2 * ((inst / 8) mod 8)
  /\ jump_imm inst mod 2 = 0
  /\ 0 <= jump_imm inst <= 1022.
Proof.
  assert (H : jump_imm inst = 16 * ((inst / 512) mod 64) + 2 * ((inst / 8) mod 8)).
  { unfold jump_imm. fields_div.
    rewrite (Z.shiftl_mul_pow2 ((inst / 8) mod 8 mod 256) 1) by lia.
    change (2 ^ 1) with 2.
    rewrite lor_shiftl_add by (simpl; lia). change (2 ^ 4) with 16. lia. }
  rewrite H. lia.
Qed.

(** X16.  The number printed after ecall is bits [13:6] of the word: the
    two top bits of the 10-bit service field are dropped, so it is always
    below 256. *)
Theorem ecall_number (inst pc0 : Z) :
  opcode_of inst = 7 ->
  dis_out (disassemble inst pc0) = ("ecall " ^^ fmt_dec ((inst / 64) mod 256))%string
  /\ 0 <= (inst / 64) mod 256 < 256.
Proof.
  intros Hop. unfold disassemble. rewrite Hop. simpl.
  split; [|lia]. do 2 f_equal. fields_div. lia.
Qed.

(** Service field 259 = 0x103 prints as 3. *)
Lemma ecall_number_witness :
  opcode_of 0x40C7 = 7
  /\ Z.land (Z.shiftr 0x40C7 6) 1023 = 259
  /\ dis_out (disassemble 0x40C7 0) = "ecall 3"%string.
Proof.
  split; [reflexivity|]. split; [reflexivity|].
  exact (proj1 (ecall_number 0x40C7 0 eq_refl)).
Defined.

(** X17.  Shift immediates are never decoded: [disassemble] takes the
    shift mode from bits [6:4] of a value it has already cut to four bits,
    so for every I-type word with funct3 = 3 it prints the unknown-shift
    text, never slli, srli or srai. *)
Theorem shift_always_unknown (inst pc0 : Z) :
  opcode_of inst = 1 -> funct3_of inst = 3 ->
  dis_out (disassemble inst pc0)
  = ("unknown shift " ^^ regName (rd_rs1_of inst) ^^ ", imm=0x"
       ^^ fmt_hex 2 (disasm_imm7 inst))%string.
Proof.
  intros Hop H3.
  assert (Hmode : u8 (Z.land (Z.shiftr (disasm_imm7 inst) 4) 7) = 0)
    by (fields_div; lia).
  unfold disassemble. rewrite Hop. cbn [Z.eqb Pos.eqb dis_out].
  unfold disasm_itype. rewrite H3, Hmode. reflexivity.
Qed.

(** The word for [slli ra, 2] (mode 1, amount 2). *)
Lemma shift_always_unknown_witness :
  opcode_of 0x2459 = 1 /\ funct3_of 0x2459 = 3
  /\ exec_imm7 0x2459 = 18
  /\ dis_out (disassemble 0x2459 0) = "unknown shift ra, imm=0x02"%string.
Proof.
  repeat (split; [reflexivity|]).
  exact (shift_always_unknown 0x2459 0 eq_refl eq_refl).
Defined.

(** ** Words that print nothing *)

Lemma fmt_rr_nonempty mn a b : fmt_rr mn a b <> EmptyString.
Proof. unfold fmt_rr. destruct mn; simpl; discriminate. Qed.

Lemma fmt_ri_nonempty mn a i : fmt_ri mn a i <> EmptyString.
Proof. unfold fmt_ri. destruct mn; simpl; discriminate. Qed.

Lemma fmt_rri_nonempty mn a b i : fmt_rri mn a b i <> EmptyString.
Proof. unfold fmt_rri. destruct mn; simpl; discriminate. Qed.

Lemma fmt_mem_nonempty mn a i b : fmt_mem mn a i b <> EmptyString.
Proof. unfold fmt_mem. destruct mn; simpl; discriminate. Qed.

Ltac nonempty :=
  first [ apply fmt_rr_nonempty | apply fmt_ri_nonempty
        | apply fmt_rri_nonempty | apply fmt_mem_nonempty
        | simpl; discriminate ].

Ltac eqb_facts :=
  repeat match goal with
  | H : (_ =? _) = false |- _ => apply Z.eqb_neq in H
  | H : (_ =? _) = true |- _ => apply Z.eqb_eq in H
  end.

Lemma funct3_of_range inst : 0 <= funct3_of inst < 8.
Proof. fields. lia. Qed.

Lemma rtype_blank inst :
  disasm_rtype inst = EmptyString
  <-> rtype_defined (funct4_of inst) (funct3_of inst) = false.
Proof.
  unfold disasm_rtype, rtype_defined. cbn [existsb fst snd].
  repeat match goal with
  | |- context [if ?b then _ else _] =>
      destruct b eqn:?;
      [ cbn [orb]; split; intros H; [exfalso; revert H; nonempty | discriminate] | ]
  end.
  cbn [orb]. tauto.
Qed.

Lemma itype_nonblank inst : disasm_itype inst <> EmptyString.
Proof.
  pose proof (funct3_of_range inst) as Hr. unfold disasm_itype.
  repeat match goal with
  | |- context [if ?b then _ else _] => destruct b eqn:?
  end; try nonempty.
  exfalso. eqb_facts. lia.
Qed.

Lemma btype_nonblank inst : disasm_btype inst <> EmptyString.
Proof.
  pose proof (funct3_of_range inst) as Hr. unfold disasm_btype.
  repeat match goal with
  | |- context [if ?b then _ else _] => destruct b eqn:?; [nonempty|]
  end.
  eqb_facts. lia.
Qed.

Lemma stype_blank inst : disasm_stype inst = EmptyString <-> 2 <= funct3_of inst.
Proof.
  pose proof (funct3_of_range inst) as Hr. unfold disasm_stype.
  repeat match goal with
  | |- context [if ?b then _ else _] =>
      destruct b eqn:?;
      [ eqb_facts; split; intros H; [exfalso; revert H; nonempty | lia] | ]
  end.
  eqb_facts. split; [lia | reflexivity].
Qed.

Lemma ltype_blank inst :
  disasm_ltype inst = EmptyString
  <-> funct3_of inst <> 0 /\ funct3_of inst <> 1 /\ funct3_of inst <> 4.
Proof.
  unfold disasm_ltype.
  repeat match goal with
  | |- context [if ?b then _ else _] =>
      destruct b eqn:?;
      [ eqb_facts; split; intros H; [exfalso; revert H; nonempty | lia] | ]
  end.
  eqb_facts. split; [lia | reflexivity].
Qed.

Lemma flag_bit inst : u8 (Z.land (Z.shiftr inst 15) 1) = 0 \/ u8 (Z.land (Z.shiftr inst 15) 1) = 1.
Proof. fields. lia. Qed.

Lemma jtype_nonblank inst : disasm_jtype inst <> EmptyString.
Proof.
  pose proof (flag_bit inst) as Hr. unfold disasm_jtype.
  repeat match goal with
  | |- context [if ?b then _ else _] => destruct b eqn:?; [nonempty|]
  end.
  eqb_facts. lia.
Qed.

Lemma utype_nonblank inst : disasm_utype inst <> EmptyString.
Proof.
  pose proof (flag_bit inst) as Hr. unfold disasm_utype.
  repeat match goal with
  | |- context [if ?b then _ else _] => destruct b eqn:?; [nonempty|]
  end.
  eqb_facts. lia.
Qed.

(** X18.  The words for which the trace line is blank after the address.
    [disassemble] prints no text, and no unknown marker, exactly for an
    R-type word whose (funct4, funct3) pair is not one of its thirteen
    mnemonics, an S-type word with funct3 above 1, and an L-type word with
    funct3 other than 0, 1 and 4; every other word prints some text. *)
Theorem blank_line_iff (inst pc0 : Z) :
  dis_out (disassemble inst pc0) = EmptyString
  <-> (opcode_of inst = 0
       /\ rtype_defined (funct4_of inst) (funct3_of inst) = false)
      \/ (opcode_of inst = 3 /\ 2 <= funct3_of inst)
      \/ (opcode_of inst = 4
          /\ funct3_of inst <> 0 /\ funct3_of inst <> 1 /\ funct3_of inst <> 4).
Proof.
  pose proof (opcode_of_range inst) as Hr.
  pose proof (rtype_blank inst) as HR.
  pose proof (stype_blank inst) as HS.
  pose proof (ltype_blank inst) as HL.
  pose proof (itype_nonblank inst) as HI.
  pose proof (btype_nonblank inst) as HB.
  pose proof (jtype_nonblank inst) as HJ.
  pose proof (utype_nonblank inst) as HU.
  assert (HE : ("ecall " ^^ fmt_dec (svc_of inst))%string <> EmptyString)
    by (simpl; discriminate).
  unfold disassemble.
  repeat match goal with
  | |- context [if ?b then _ else _] => destruct b eqn:?
  end; cbn [dis_out]; eqb_facts; intuition lia.
Qed.

(** ** The sign extension of the executor *)

Lemma forall_below (n : nat) (P : Z -> bool) :
  forallb P (map Z.of_nat (seq 0 n)) = true ->
  forall x, 0 <= x < Z.of_nat n -> P x = true.
Proof.
  intros Hall x Hx.
  apply (proj1 (forallb_forall P _) Hall).
  apply in_map_iff. exists (Z.to_nat x). split; [lia|].
  apply in_seq. lia.
Qed.

Lemma exec_imm7_range inst : 0 <= exec_imm7 inst < 128.
Proof. fields. lia. Qed.

(** X19.  The [simm] the executor computes for an I-type word is the
    two's-complement reading of its 7-bit field: the field itself below 64,
    the field minus 128 from 64 on; it lies between -64 and 63. *)
Theorem exec_simm_value (inst : Z) :
  exec_simm inst
  = (if exec_imm7 inst <? 64 then exec_imm7 inst else exec_imm7 inst - 128)
  /\ -64 <= exec_simm inst < 64
  /\ exec_simm inst mod 128 = exec_imm7 inst.
Proof.
  pose proof (exec_imm7_range inst) as Hr.
  assert (H : exec_simm inst
              = if exec_imm7 inst <? 64 then exec_imm7 inst else exec_imm7 inst - 128).
  { unfold exec_simm. generalize dependent (exec_imm7 inst). intros x Hx.
    apply Z.eqb_eq.
    apply (forall_below 128
             (fun x => s16 (if Z.land x 64 =? 0 then x else Z.lor x 65408)
                       =? (if x <? 64 then x else x - 128))); [|lia].
    vm_compute. reflexivity. }
  rewrite H. destruct (exec_imm7 inst <? 64) eqn:Hlt.
  - apply Z.ltb_lt in Hlt. lia.
  - apply Z.ltb_ge in Hlt. lia.
Qed.
